(** * OHLC bar chart: viewport transform, rendering and gestures

    A shallow embedding of the [Chart] class (constructor,
    [calculatePriceRange], [drawChart], [drawBars], [getDateFromBar],
    [drawDateLabel] and the five event handlers) together with the
    properties of its price range, zoom, pan and labelling logic. *)

From Stdlib Require Import ZArith QArith Qround Qabs List String Ascii Bool Lia Lqa.
From Stdlib Require Import DecimalString DecimalZ.
From Stdlib Require Import Qpower FinFun.
Import ListNotations.

Local Open Scope Q_scope.

(** ** The [number] type

    A TypeScript [number] is modelled as an exact rational or one of the
    three IEEE-754 special values.  Arithmetic on finite values is exact
    (rounding is not modelled) and zero carries no sign: a zero divisor
    behaves as [+0].  The special values follow the ECMAScript rules, so
    division by zero is visible in the model as [PInf], [NInf] or [NaN]. *)

Inductive number : Type :=
| Fin (q : Q)
| PInf
| NInf
| NaN.

Declare Scope number_scope.
Delimit Scope number_scope with number.
Bind Scope number_scope with number.

Definition of_Z (z : Z) : number := Fin (inject_Z z).
Definition of_N (n : N) : number := of_Z (Z.of_N n).
Definition of_nat (n : nat) : number := of_Z (Z.of_nat n).

(** The sign of a value as a [comparison] with zero. *)
Definition sgn (x : number) : comparison :=
  match x with
  | Fin q => q ?= 0
  | PInf => Gt
  | NInf => Lt
  | NaN => Eq
  end.

(** Sign of a divisor: an exact zero divides like [+0]. *)
Definition sgn_divisor (x : number) : comparison :=
  match sgn x with
  | Lt => Lt
  | _ => Gt
  end.

Definition sgn_mul (a b : comparison) : comparison :=
  match a, b with
  | Eq, _ | _, Eq => Eq
  | Lt, Lt | Gt, Gt => Gt
  | Lt, Gt | Gt, Lt => Lt
  end.

(** The infinity of a given sign; a zero sign stands for the invalid
    operations [0 * Infinity] and [0 / 0]. *)
Definition inf_of_sign (c : comparison) : number :=
  match c with
  | Gt => PInf
  | Lt => NInf
  | Eq => NaN
  end.

Definition neg (x : number) : number :=
  match x with
  | Fin q => Fin (- q)
  | PInf => NInf
  | NInf => PInf
  | NaN => NaN
  end.

Definition add (x y : number) : number :=
  match x, y with
  | NaN, _ | _, NaN => NaN
  | Fin a, Fin b => Fin (a + b)
  | Fin _, i => i
  | i, Fin _ => i
  | PInf, PInf => PInf
  | NInf, NInf => NInf
  | PInf, NInf | NInf, PInf => NaN
  end.

Definition sub (x y : number) : number := add x (neg y).

Definition mul (x y : number) : number :=
  match x, y with
  | NaN, _ | _, NaN => NaN
  | Fin a, Fin b => Fin (a * b)
  | _, _ => inf_of_sign (sgn_mul (sgn x) (sgn y))
  end.

Definition div (x y : number) : number :=
  match x, y with
  | NaN, _ | _, NaN => NaN
  | Fin a, Fin b =>
      match b ?= 0 with
      | Eq => inf_of_sign (a ?= 0)
      | _ => Fin (a / b)
      end
  | Fin _, _ => Fin 0
  | _, Fin _ => inf_of_sign (sgn_mul (sgn x) (sgn_divisor y))
  | _, _ => NaN
  end.

(** [x > y] of the language: false as soon as one side is [NaN]. *)
Definition gt (x y : number) : bool :=
  match x, y with
  | NaN, _ | _, NaN => false
  | Fin a, Fin b => negb (Qle_bool a b)
  | PInf, PInf => false
  | PInf, _ => true
  | _, NInf => match x with NInf => false | _ => true end
  | _, _ => false
  end.

Definition Math_sign (x : number) : number :=
  match x with
  | NaN => NaN
  | _ => match sgn x with
         | Lt => Fin (-1)
         | Eq => Fin 0
         | Gt => Fin 1
         end
  end.

(** One step of the [Math.max] / [Math.min] scan: [NaN] is absorbing. *)
Definition max2 (acc x : number) : number :=
  match acc, x with
  | NaN, _ | _, NaN => NaN
  | _, _ => if gt x acc then x else acc
  end.

Definition min2 (acc x : number) : number :=
  match acc, x with
  | NaN, _ | _, NaN => NaN
  | _, _ => if gt acc x then x else acc
  end.

(** [Math.max(...l)] and [Math.min(...l)]: the scan starts from
    [-Infinity], respectively [+Infinity], which is the result for no
    argument at all. *)
Definition Math_max (l : list number) : number := fold_left max2 l NInf.
Definition Math_min (l : list number) : number := fold_left min2 l PInf.

Infix "+" := add : number_scope.
Infix "-" := sub : number_scope.
Infix "*" := mul : number_scope.
Infix "/" := div : number_scope.

Definition is_finite (x : number) : bool :=
  match x with
  | Fin _ => true
  | _ => false
  end.

(** Equality of numbers as values: rationals up to [Qeq], each special
    value equal to itself. *)
Definition num_eq (x y : number) : Prop :=
  match x, y with
  | Fin a, Fin b => a == b
  | PInf, PInf | NInf, NInf | NaN, NaN => True
  | _, _ => False
  end.


Infix "=n=" := num_eq (at level 70, no associativity).

(** ** Dates

    [new Date(v)] keeps a time value in milliseconds, or no value at all
    for an invalid date ([TimeClip]).  The local-time getters add the
    host's time-zone offset and read the civil date of the resulting
    day number. *)

Definition Date : Type := option Z.

Definition ToIntegerOrInfinity (q : Q) : Z :=
  if Qle_bool 0 q then Qfloor q else Qceiling q.

Definition TimeClip (v : number) : Date :=
  match v with
  | Fin q =>
      if Qle_bool (Qabs q) 8640000000000000 then Some (ToIntegerOrInfinity q)
      else None
  | _ => None
  end.

Definition new_Date (value : number) : Date := TimeClip value.

Definition msPerDay : Z := 86400000.

Definition Day (t : Z) : Z := (t / msPerDay)%Z.

(** Year, month (1..12) and day of the month of a day number counted
    from 1970-01-01, in the proleptic Gregorian calendar. *)
Definition civil_from_days (days : Z) : Z * Z * Z :=
  (let z := days + 719468 in
   let era := z / 146097 in
   let doe := z - era * 146097 in
   let yoe := (doe - doe / 1460 + doe / 36524 - doe / 146096) / 365 in
   let y := yoe + era * 400 in
   let doy := doe - (365 * yoe + yoe / 4 - yoe / 100) in
   let mp := (5 * doy + 2) / 153 in
   let d := doy - (153 * mp + 2) / 5 + 1 in
   let m := if mp <? 10 then mp + 3 else mp - 9 in
   (if m <=? 2 then y + 1 else y, m, d))%Z.

Definition YearFromTime (t : Z) : Z := fst (fst (civil_from_days (Day t))).
Definition MonthFromTime (t : Z) : Z := (snd (fst (civil_from_days (Day t))) - 1)%Z.
Definition DateFromTime (t : Z) : Z := snd (civil_from_days (Day t)).

Definition Z_toString (z : Z) : string := NilEmpty.string_of_int (Z.to_int z).

(** [ToString] of a number.  The program only prints integers and
    [NaN]; a fractional value, which it never prints, is shown as its
    numerator and denominator. *)
Definition Number_toString (x : number) : string :=
  match x with
  | NaN => "NaN"
  | PInf => "Infinity"
  | NInf => "-Infinity"
  | Fin q =>
      if Qeq_bool q (inject_Z (Qfloor q)) then Z_toString (Qfloor q)
      else (Z_toString (Qnum q) ++ "/" ++ Z_toString (Zpos (Qden q)))%string
  end.

(** ** Data and host interface *)

(** A bar of the data feed.  Its fields are [number]s that come from
    the data set: finite values, hence rationals here. *)
Record IBar : Type := mkBar {
  Time : Q;
  Open : Q;
  High : Q;
  Low : Q;
  Close : Q;
  TickVolume : Q
}.

(** The canvas attributes [width] and [height] are unsigned integers. *)
Record HTMLCanvasElement : Type := mkCanvas {
  width : N;
  height : N
}.

(** Result of [getBoundingClientRect], as far as the chart reads it. *)
Record DOMRect : Type := mkRect {
  rect_left : Q;
  rect_top : Q
}.

(** Pointer events carry finite client coordinates; a wheel event is a
    mouse event with a scroll delta. *)
Record MouseEvent : Type := mkMouse {
  clientX : Q;
  clientY : Q
}.

Record WheelEvent : Type := mkWheel {
  deltaY : Q;
  wheel_pointer :> MouseEvent
}.

(** What the chart asks of the drawing context, in program order. *)
Inductive CtxCall : Type :=
| clearRect (x y w h : number)
| set_strokeStyle (style : string)
| strokeRect (x y w h : number)
| set_fillStyle (style : string)
| fillRect (x y w h : number)
| set_textAlign (align : string)
| fillText (text : string) (x y : number)
| ctx_scale (x y : number).

(** ** The chart *)

Record Chart : Type := mkChart {
  data : list IBar;
  canvas : HTMLCanvasElement;
  scale : number;
  offsetX : number;
  offsetY : number;
  isDragging : bool;
  dragStartX : number;
  dragStartY : number;
  minPrice : number;
  maxPrice : number
}.

Definition set_scale (v : number) (c : Chart) : Chart :=
  mkChart (data c) (canvas c) v (offsetX c) (offsetY c) (isDragging c)
          (dragStartX c) (dragStartY c) (minPrice c) (maxPrice c).

Definition set_offsetX (v : number) (c : Chart) : Chart :=
  mkChart (data c) (canvas c) (scale c) v (offsetY c) (isDragging c)
          (dragStartX c) (dragStartY c) (minPrice c) (maxPrice c).

Definition set_offsetY (v : number) (c : Chart) : Chart :=
  mkChart (data c) (canvas c) (scale c) (offsetX c) v (isDragging c)
          (dragStartX c) (dragStartY c) (minPrice c) (maxPrice c).

Definition set_isDragging (v : bool) (c : Chart) : Chart :=
  mkChart (data c) (canvas c) (scale c) (offsetX c) (offsetY c) v
          (dragStartX c) (dragStartY c) (minPrice c) (maxPrice c).

Definition set_dragStartX (v : number) (c : Chart) : Chart :=
  mkChart (data c) (canvas c) (scale c) (offsetX c) (offsetY c) (isDragging c)
          v (dragStartY c) (minPrice c) (maxPrice c).

Definition set_dragStartY (v : number) (c : Chart) : Chart :=
  mkChart (data c) (canvas c) (scale c) (offsetX c) (offsetY c) (isDragging c)
          (dragStartX c) v (minPrice c) (maxPrice c).

Definition set_minPrice (v : number) (c : Chart) : Chart :=
  mkChart (data c) (canvas c) (scale c) (offsetX c) (offsetY c) (isDragging c)
          (dragStartX c) (dragStartY c) v (maxPrice c).

Definition set_maxPrice (v : number) (c : Chart) : Chart :=
  mkChart (data c) (canvas c) (scale c) (offsetX c) (offsetY c) (isDragging c)
          (dragStartX c) (dragStartY c) (minPrice c) v.

Definition calculatePriceRange (c : Chart) : Chart :=
  let c := set_minPrice (Math_min (map (fun bar => Fin (Low bar)) (data c))) c in
  set_maxPrice (Math_max (map (fun bar => Fin (High bar)) (data c))) c.

(** The constructor: field initialisers, then [calculatePriceRange].
    [setupEvents] only registers the handlers; their dispatch is
    [perform] below. *)
Definition new_Chart (data : list IBar) (canvas : HTMLCanvasElement) : Chart :=
  calculatePriceRange
    (mkChart data canvas (Fin 1) (Fin 0) (Fin 0) false (Fin 0) (Fin 0)
             (Fin 0) (Fin 0)).

Section Rendering.

Local Open Scope number_scope.

Variable c : Chart.

Definition canvas_width : number := of_N (width (canvas c)).
Definition canvas_height : number := of_N (height (canvas c)).
Definition data_length : number := of_nat (List.length (data c)).

(** The constants computed at the head of [drawBars]. *)
Definition barWidth : number := canvas_width / data_length.
Definition scaledWidth : number := canvas_width * scale c.
Definition scaledHeight : number := canvas_height * scale c.
Definition drawBars_offsetX : number :=
  offsetX c - (scaledWidth - canvas_width) / Fin 2.
Definition drawBars_offsetY : number :=
  offsetY c - (scaledHeight - canvas_height) / Fin 2.

(** The per-bar expressions of the loop body; [barX] and [barY] take
    the index and the price as numbers, the body applies them to the
    bar's index and [Close]. *)
Definition barX (index : number) : number :=
  (index * canvas_width) / data_length * scale c - drawBars_offsetX.

Definition barY (price : number) : number :=
  scaledHeight
  - ((price - minPrice c) / (maxPrice c - minPrice c) * scaledHeight)
  - drawBars_offsetY.

Definition barHeight (bar : IBar) : number :=
  (Fin (High bar) - Fin (Low bar)) / (maxPrice c - minPrice c) * scaledHeight.

Definition labelX (index : number) : number :=
  (index * canvas_width) / data_length * scale c - drawBars_offsetX
  + barWidth / Fin 2.

Definition barColor (bar : IBar) : string :=
  if gt (Fin (Close bar)) (Fin (Open bar)) then "green"%string else "red"%string.

End Rendering.

Definition drawDateLabel (date : string) (x y : number) : list CtxCall :=
  [set_fillStyle "black"; set_textAlign "center"; fillText date x y].

(** [currentDate !== previousDate], where [previousDate] starts as [null]. *)
Definition date_changed (currentDate : string) (previousDate : option string) : bool :=
  match previousDate with
  | None => true
  | Some p => negb (String.eqb currentDate p)
  end.

Section Host.

(** The host's local time-zone adjustment, in milliseconds, for a
    given UTC time value. *)
Variable LocalTZA : Z -> Z.

Definition LocalTime (t : Z) : Z := (t + LocalTZA t)%Z.

Definition getDate (d : Date) : number :=
  match d with
  | None => NaN
  | Some t => of_Z (DateFromTime (LocalTime t))
  end.

Definition getMonth (d : Date) : number :=
  match d with
  | None => NaN
  | Some t => of_Z (MonthFromTime (LocalTime t))
  end.

Definition getFullYear (d : Date) : number :=
  match d with
  | None => NaN
  | Some t => of_Z (YearFromTime (LocalTime t))
  end.

Definition getDateFromBar (time : number) : string :=
  let date := new_Date (time * Fin 1000)%number in
  (Number_toString (getDate date) ++ "."
   ++ Number_toString (getMonth date + Fin 1)%number ++ "."
   ++ Number_toString (getFullYear date))%string.

(** One iteration of the [forEach] in [drawBars]: the calls it makes
    and the value of [previousDate] it leaves. *)
Definition drawBars_body (c : Chart) (previousDate : option string)
           (index : nat) (bar : IBar) : list CtxCall * option string :=
  let x := barX c (of_nat index) in
  let y := barY c (Fin (Close bar)) in
  let barHeight := barHeight c bar in
  let rect :=
    [set_fillStyle (barColor bar);
     fillRect x y (barWidth c * scale c)%number barHeight] in
  let currentDate := getDateFromBar (Fin (Time bar)) in
  if date_changed currentDate previousDate then
    (rect ++ drawDateLabel currentDate (labelX c (of_nat index))
                           (canvas_height c - Fin 5)%number,
     Some currentDate)
  else (rect, previousDate).

(** The iterations of the loop from [index] on, one group of calls
    per bar. *)
Fixpoint drawBars_iterations (c : Chart) (previousDate : option string)
         (index : nat) (bars : list IBar) : list (list CtxCall) :=
  match bars with
  | [] => []
  | bar :: rest =>
      let '(calls, previousDate') := drawBars_body c previousDate index bar in
      calls :: drawBars_iterations c previousDate' (S index) rest
  end.

Definition drawBars (c : Chart) : list CtxCall :=
  List.concat (drawBars_iterations c None 0 (data c)).

Definition drawChart (c : Chart) : list CtxCall :=
  [clearRect (Fin 0) (Fin 0) (canvas_width c) (canvas_height c);
   set_strokeStyle "#000";
   strokeRect (Fin 0) (Fin 0) (canvas_width c) (canvas_height c)]
  ++ drawBars c.

Definition zoomFactor (event : WheelEvent) : number :=
  let delta := Math_sign (Fin (deltaY event)) in
  if gt delta (Fin 0) then Fin (11 # 10) else Fin (9 # 10).

Definition handleMouseWheel (rect : DOMRect) (event : WheelEvent) (c : Chart)
  : Chart * list CtxCall :=
  let zoomFactor := zoomFactor event in
  let offsetX' := (Fin (clientX event) - Fin (rect_left rect))%number in
  let offsetY' := (Fin (clientY event) - Fin (rect_top rect))%number in
  let previousScale := scale c in
  let c := set_scale (scale c * zoomFactor)%number c in
  let minScale := Fin 1 in
  let c := set_scale (Math_max [minScale; scale c]) c in
  let scaled :=
    if gt (scale c) minScale then [ctx_scale zoomFactor zoomFactor] else [] in
  let c :=
    set_offsetX
      (offsetX' - (offsetX' - offsetX c) * (scale c / previousScale))%number c in
  let c :=
    set_offsetY
      (offsetY' - (offsetY' - offsetY c) * (scale c / previousScale))%number c in
  (c, scaled ++ drawChart c).

Definition handleMouseDown (event : MouseEvent) (c : Chart) : Chart * list CtxCall :=
  let c := set_isDragging true c in
  let c := set_dragStartX (Fin (clientX event)) c in
  let c := set_dragStartY (Fin (clientY event)) c in
  (c, []).

Definition handleMouseMove (event : MouseEvent) (c : Chart) : Chart * list CtxCall :=
  if isDragging c then
    let deltaX := (Fin (clientX event) - dragStartX c)%number in
    let deltaY := (Fin (clientY event) - dragStartY c)%number in
    let c := set_offsetX (offsetX c + deltaX)%number c in
    let c := set_offsetY (offsetY c + deltaY)%number c in
    let c := set_dragStartX (Fin (clientX event)) c in
    let c := set_dragStartY (Fin (clientY event)) c in
    (c, drawChart c)
  else (c, []).

Definition handleMouseUp (c : Chart) : Chart * list CtxCall :=
  (set_isDragging false c, []).

Definition handleMouseLeave (c : Chart) : Chart * list CtxCall :=
  (set_isDragging false c, []).

(** The operations a host can trigger on a chart: a repaint, or one of
    the events registered by [setupEvents]. *)
Inductive Operation : Type :=
| Render
| Wheel (rect : DOMRect) (event : WheelEvent)
| MouseDown (event : MouseEvent)
| MouseMove (event : MouseEvent)
| MouseUp
| MouseLeave.

Definition perform (op : Operation) (c : Chart) : Chart * list CtxCall :=
  match op with
  | Render => (c, drawChart c)
  | Wheel rect event => handleMouseWheel rect event c
  | MouseDown event => handleMouseDown event c
  | MouseMove event => handleMouseMove event c
  | MouseUp => handleMouseUp c
  | MouseLeave => handleMouseLeave c
  end.

(** The chart after a sequence of operations, oldest first. *)
Definition run (ops : list Operation) (c : Chart) : Chart :=
  fold_left (fun c op => fst (perform op c)) ops c.

End Host.

(** ** Derived notions

    Readings of the model that the properties are stated with. *)


(** The zoom floor as a property of a chart state. *)
Definition scale_at_least_1 (c : Chart) : Prop :=
  exists s, scale c = Fin s /\ 1 <= s.

(** The vertical position computed in [drawBars] before the offset
    term is subtracted: [barY] is this value minus [drawBars_offsetY]. *)
Definition barY_unshifted (c : Chart) (price : number) : number :=
  sub (scaledHeight c)
      (mul (div (sub price (minPrice c)) (sub (maxPrice c) (minPrice c)))
           (scaledHeight c)).

(** Reading the calls of one loop iteration: whether a date label is
    among them, and how many labels a list of calls holds. *)
Definition is_fillText (call : CtxCall) : bool :=
  match call with
  | fillText _ _ _ => true
  | _ => false
  end.

Definition label_drawn (calls : list CtxCall) : bool := existsb is_fillText calls.

Definition count_labels (calls : list CtxCall) : nat :=
  List.length (filter is_fillText calls).

(** The date string the loop computes for a bar. *)
Definition bar_date (LocalTZA : Z -> Z) (bar : IBar) : string :=
  getDateFromBar LocalTZA (Fin (Time bar)).

(** The calendar date (day, month, year) of a bar's time stamp in the
    host's time zone; none when the time stamp is out of the range of
    [Date]. *)
Definition calendar_date (LocalTZA : Z -> Z) (time : Q) : option (Z * Z * Z) :=
  match new_Date (mul (Fin time) (Fin 1000)) with
  | None => None
  | Some t =>
      let '(y, m, d) := civil_from_days (Day (LocalTime LocalTZA t)) in
      Some (d, m, y)
  end.

(** The text of a calendar date as the template of [getDateFromBar]
    prints it. *)
Definition format_date (date : option (Z * Z * Z)) : string :=
  match date with
  | None => "NaN.NaN.NaN"
  | Some (d, m, y) => Z_toString d ++ "." ++ Z_toString m ++ "." ++ Z_toString y
  end%string.

Fixpoint no_dot (s : string) : bool :=
  match s with
  | EmptyString => true
  | String ch rest => negb (Ascii.eqb ch ".") && no_dot rest
  end.

(** Which bars of a sequence of date strings start a new date, given
    the date seen last. *)
Fixpoint date_changes (previousDate : option string) (dates : list string) : list bool :=
  match dates with
  | [] => []
  | d :: rest => date_changed d previousDate :: date_changes (Some d) rest
  end.

(** The gesture machine with its two states, idle ([false]) and
    dragging ([true]): pointer-down starts a drag, pointer-up and
    pointer-leave end it, nothing else changes the state. *)
Definition gesture_step (dragging : bool) (op : Operation) : bool :=
  match op with
  | MouseDown _ => true
  | MouseUp | MouseLeave => false
  | Render | Wheel _ _ | MouseMove _ => dragging
  end.

Definition gesture_state (ops : list Operation) (dragging : bool) : bool :=
  fold_left gesture_step ops dragging.

(** Operations that are neither a pointer-down nor a wheel event. *)
Definition no_press_no_wheel (op : Operation) : bool :=
  match op with
  | MouseDown _ | Wheel _ _ => false
  | Render | MouseMove _ | MouseUp | MouseLeave => true
  end.

(** Counting calls of a kind in what a render asks of the context. *)
Definition is_fillRect (call : CtxCall) : bool :=
  match call with
  | fillRect _ _ _ _ => true
  | _ => false
  end.

Definition is_clearRect (call : CtxCall) : bool :=
  match call with
  | clearRect _ _ _ _ => true
  | _ => false
  end.

Definition is_ctx_scale (call : CtxCall) : bool :=
  match call with
  | ctx_scale _ _ => true
  | _ => false
  end.

Definition count_calls (kind : CtxCall -> bool) (calls : list CtxCall) : nat :=
  List.length (filter kind calls).



(** ** Page set-up: [DataHandler]

    The page is modelled by what the set-up code touches: the children
    of the element with id [chartsContainer], when there is one, and
    the messages sent to [console.error]. *)

Record IData : Type := mkData {
  ChunkStart : Q;
  Bars : list IBar
}.

(** A canvas element as the page sees it: its [id] beside the
    attributes the chart reads. *)
Record CanvasNode : Type := mkNode {
  node_id : string;
  node_canvas : HTMLCanvasElement
}.

Module IChartData.
Record t : Type := mk {
  canvas : CanvasNode;
  bars : list IBar
}.
End IChartData.

Record Document : Type := mkDocument {
  chartsContainer : option (list CanvasNode);
  console_error : list string
}.

(** [document.createElement('canvas')]: no id, the default size. *)
Definition createElement_canvas : CanvasNode := mkNode "" (mkCanvas 300 150).

Definition set_id (v : string) (node : CanvasNode) : CanvasNode :=
  mkNode v (node_canvas node).

Definition set_width (v : N) (node : CanvasNode) : CanvasNode :=
  mkNode (node_id node) (mkCanvas v (height (node_canvas node))).

Definition set_height (v : N) (node : CanvasNode) : CanvasNode :=
  mkNode (node_id node) (mkCanvas (width (node_canvas node)) v).

(** The template [`chartCanvas${index + 1}`]. *)
Definition chartCanvas_id (index : nat) : string :=
  ("chartCanvas" ++ Number_toString (add (of_nat index) (Fin 1)))%string.

Section PageSetup.

Variable LocalTZA : Z -> Z.

(** One iteration of the [forEach] in [initCharts]: the canvas as it is
    appended, the chart built on it and the calls of its first render. *)
Definition initCharts_body (index : nat) (data : IChartData.t)
  : CanvasNode * (Chart * list CtxCall) :=
  let canvas := IChartData.canvas data in
  let bars := IChartData.bars data in
  let canvas := set_id (chartCanvas_id index) canvas in
  let canvas := set_width 800 canvas in
  let canvas := set_height 400 canvas in
  let chart := new_Chart bars (node_canvas canvas) in
  (canvas, (chart, drawChart LocalTZA chart)).

Fixpoint initCharts_loop (index : nat) (chartData : list IChartData.t)
         (children : list CanvasNode)
  : list CanvasNode * list (Chart * list CtxCall) :=
  match chartData with
  | [] => (children, [])
  | data :: rest =>
      let '(canvas, chart) := initCharts_body index data in
      let '(children', charts) :=
        initCharts_loop (S index) rest (children ++ [canvas]) in
      (children', chart :: charts)
  end.

(** [initCharts]: the page afterwards, and the charts created, each
    with the calls of its first render. *)
Definition initCharts (chartData : list IChartData.t) (document : Document)
  : Document * list (Chart * list CtxCall) :=
  match chartsContainer document with
  | Some children =>
      let '(children', charts) := initCharts_loop 0 chartData children in
      (mkDocument (Some children') (console_error document), charts)
  | None =>
      (mkDocument None
         (console_error document
          ++ ["Element '#chartsContainer' not found on the page."%string]),
       [])
  end.

(** The module's top level: one fresh canvas per data set, then
    [new DataHandler(chartData)]. *)
Definition chartData (data : list IData) : list IChartData.t :=
  map (fun chartData => IChartData.mk createElement_canvas (Bars chartData)) data.

Definition new_DataHandler (data : list IData) (document : Document)
  : Document * list (Chart * list CtxCall) :=
  initCharts (chartData data) document.

End PageSetup.

(** ** Sample inputs *)

(** A host whose local time is UTC, a canvas placed at the origin of
    the page. *)
Definition utc : Z -> Z := fun _ => 0%Z.

Definition canvas_300x100 : HTMLCanvasElement := mkCanvas 300 100.

Definition page_origin : DOMRect := mkRect 0 0.

(** The three bars of the end-to-end example, stamped at 00:00 and
    12:00 of one day and at 00:00 of the next. *)
Definition example_bars : list IBar :=
  [mkBar 0 10 12 9 11 0; mkBar 43200 11 11 8 9 0; mkBar 86400 9 10 8 (95 # 10) 0].

Definition example_chart : Chart := new_Chart example_bars canvas_300x100.

(** The example bars on the canvas size the page set-up uses. *)
Definition example_chart_800x400 : Chart := new_Chart example_bars (mkCanvas 800 400).

(** One notch of the wheel with a positive delta, pointer at the centre
    of the example canvas, and the example chart after it. *)
Definition wheel_at_centre : WheelEvent := mkWheel 100 (mkMouse 150 50).

Definition zoomed_chart : Chart :=
  fst (handleMouseWheel utc page_origin wheel_at_centre example_chart).

(** A single bar whose four prices coincide, and a single bar whose
    [Close] lies above its [High]. *)
Definition flat_bar : IBar := mkBar 0 10 10 10 10 0.

Definition flat_chart : Chart := new_Chart [flat_bar] canvas_300x100.



(** * Properties *)

(** ** Facts about [number] *)

Lemma gt_Fin (a b : Q) : gt (Fin a) (Fin b) = true <-> b < a.
Proof.
  simpl. rewrite negb_true_iff. split; intro H.
  - apply Qnot_le_lt. intro Hle. apply Qle_bool_iff in Hle. congruence.
  - destruct (Qle_bool a b) eqn:E; trivial.
    apply Qle_bool_iff in E. lra.
Qed.

Lemma gt_Fin_false (a b : Q) : gt (Fin a) (Fin b) = false <-> a <= b.
Proof.
  simpl. rewrite negb_false_iff. apply Qle_bool_iff.
Qed.

Lemma num_eq_refl (x : number) : x =n= x.
Proof. destruct x; simpl; trivial. reflexivity. Qed.





(** The [Math.min] scan over finite values, from a finite accumulator. *)
Lemma min_scan (l : list Q) : forall a : Q,
  exists m, fold_left min2 (map Fin l) (Fin a) = Fin m /\
            (m = a \/ In m l) /\ m <= a /\ forall x, In x l -> m <= x.
Proof.
  induction l as [|x l IH]; intro a; simpl.
  - exists a. repeat split; auto; try lra. intros x [].
  - destruct (negb (Qle_bool a x)) eqn:E.
    + assert (Hlt : x < a) by (apply gt_Fin; exact E).
      destruct (IH x) as [m [Hm [Hin [Hle Hall]]]].
      exists m. repeat split; auto.
      * destruct Hin as [-> | Hin]; auto.
      * lra.
      * intros y [<- | Hy]; auto.
    + assert (Hle' : a <= x) by (apply gt_Fin_false; exact E).
      destruct (IH a) as [m [Hm [Hin [Hle Hall]]]].
      exists m. repeat split; auto.
      * destruct Hin as [-> | Hin]; auto.
      * intros y [<- | Hy]; auto. lra.
Qed.

Lemma max_scan (l : list Q) : forall a : Q,
  exists m, fold_left max2 (map Fin l) (Fin a) = Fin m /\
            (m = a \/ In m l) /\ a <= m /\ forall x, In x l -> x <= m.
Proof.
  induction l as [|x l IH]; intro a; simpl.
  - exists a. repeat split; auto; try lra. intros x [].
  - destruct (negb (Qle_bool x a)) eqn:E.
    + assert (Hlt : a < x) by (apply gt_Fin; exact E).
      destruct (IH x) as [m [Hm [Hin [Hle Hall]]]].
      exists m. repeat split; auto.
      * destruct Hin as [-> | Hin]; auto.
      * lra.
      * intros y [<- | Hy]; auto.
    + assert (Hle' : x <= a) by (apply gt_Fin_false; exact E).
      destruct (IH a) as [m [Hm [Hin [Hle Hall]]]].
      exists m. repeat split; auto.
      * destruct Hin as [-> | Hin]; auto.
      * intros y [<- | Hy]; auto. lra.
Qed.

(** [Math.min] and [Math.max] of a non-empty list of finite values: the
    result is an element of the list that bounds all of them. *)
Lemma Math_min_finite (l : list Q) :
  l <> [] ->
  exists m, Math_min (map Fin l) = Fin m /\ In m l /\ forall x, In x l -> m <= x.
Proof.
  destruct l as [|x l]; [congruence | intros _].
  unfold Math_min. simpl.
  destruct (min_scan l x) as [m [Hm [Hin [Hle Hall]]]].
  exists m. split; [exact Hm | split].
  - destruct Hin as [-> | Hin]; [left | right]; auto.
  - intros y [<- | Hy]; auto.
Qed.

Lemma Math_max_finite (l : list Q) :
  l <> [] ->
  exists m, Math_max (map Fin l) = Fin m /\ In m l /\ forall x, In x l -> x <= m.
Proof.
  destruct l as [|x l]; [congruence | intros _].
  unfold Math_max. simpl.
  destruct (max_scan l x) as [m [Hm [Hin [Hle Hall]]]].
  exists m. split; [exact Hm | split].
  - destruct Hin as [-> | Hin]; [left | right]; auto.
  - intros y [<- | Hy]; auto.
Qed.

(** The wheel handler's factor depends on the sign of [deltaY] only. *)
Lemma zoomFactor_cases (event : WheelEvent) :
  (0 < deltaY event -> zoomFactor event = Fin (11 # 10)) /\
  (deltaY event <= 0 -> zoomFactor event = Fin (9 # 10)).
Proof.
  unfold zoomFactor, Math_sign, sgn.
  destruct (Qcompare_spec (deltaY event) 0) as [H | H | H]; simpl;
    split; intro H'; try reflexivity; lra.
Qed.

Lemma zoomFactor_finite (event : WheelEvent) :
  exists f, zoomFactor event = Fin f /\ (f == 11 # 10 \/ f == 9 # 10).
Proof.
  destruct (Qlt_le_dec 0 (deltaY event)) as [H | H];
    apply (zoomFactor_cases event) in H; rewrite H; eexists; split;
    try reflexivity; [left | right]; reflexivity.
Qed.



Section Gestures.

Variable LocalTZA : Z -> Z.

(** *** Frame: what the operations leave alone *)

Lemma perform_frame (op : Operation) (c : Chart) :
  data (fst (perform LocalTZA op c)) = data c /\
  canvas (fst (perform LocalTZA op c)) = canvas c /\
  minPrice (fst (perform LocalTZA op c)) = minPrice c /\
  maxPrice (fst (perform LocalTZA op c)) = maxPrice c.
Proof.
  destruct op; simpl; auto.
  unfold handleMouseMove. destruct (isDragging c); simpl; auto.
Qed.

Lemma run_frame (ops : list Operation) : forall c : Chart,
  data (run LocalTZA ops c) = data c /\
  canvas (run LocalTZA ops c) = canvas c /\
  minPrice (run LocalTZA ops c) = minPrice c /\
  maxPrice (run LocalTZA ops c) = maxPrice c.
Proof.
  induction ops as [|op ops IH]; intro c; simpl; auto.
  destruct (IH (fst (perform LocalTZA op c))) as [H1 [H2 [H3 H4]]].
  destruct (perform_frame op c) as [F1 [F2 [F3 F4]]].
  unfold run in *. simpl. repeat split; congruence.
Qed.

(** *** The zoom floor *)

Lemma wheel_scale (rect : DOMRect) (event : WheelEvent) (c : Chart) :
  scale (fst (handleMouseWheel LocalTZA rect event c))
  = Math_max [Fin 1; mul (scale c) (zoomFactor event)].
Proof. reflexivity. Qed.

Lemma Math_max_floor (s f : Q) :
  exists s', Math_max [Fin 1; mul (Fin s) (Fin f)] = Fin s' /\ 1 <= s' /\
             (s' == 1 \/ s' == s * f).
Proof.
  unfold Math_max. simpl.
  destruct (negb (Qle_bool (s * f) 1)) eqn:E.
  - exists (s * f). split; [reflexivity | split].
    + apply gt_Fin in E. lra.
    + right. reflexivity.
  - exists 1. split; [reflexivity | split]; [lra | left; reflexivity].
Qed.

Lemma perform_scale_floor (op : Operation) (c : Chart) :
  scale_at_least_1 c -> scale_at_least_1 (fst (perform LocalTZA op c)).
Proof.
  intros [s [Hs Hle]]. destruct op; cbn [perform fst].
  - exists s; auto.
  - unfold scale_at_least_1. rewrite wheel_scale, Hs.
    destruct (zoomFactor_finite event) as [f [-> _]].
    destruct (Math_max_floor s f) as [s' [-> [H1 _]]].
    exists s'; auto.
  - exists s; auto.
  - unfold handleMouseMove. destruct (isDragging c); exists s; auto.
  - exists s; auto.
  - exists s; auto.
Qed.

Lemma run_scale_floor (ops : list Operation) : forall c : Chart,
  scale_at_least_1 c -> scale_at_least_1 (run LocalTZA ops c).
Proof.
  induction ops as [|op ops IH]; intros c H; [exact H|].
  apply (IH (fst (perform LocalTZA op c))).
  apply perform_scale_floor. exact H.
Qed.

Lemma new_Chart_scale (bars : list IBar) (cv : HTMLCanvasElement) :
  scale_at_least_1 (new_Chart bars cv).
Proof. exists 1. split; [reflexivity | lra]. Qed.

(** *** Panning *)


Lemma move_while_idle (event : MouseEvent) (c : Chart) :
  isDragging c = false -> handleMouseMove LocalTZA event c = (c, []).
Proof.
  intro H. unfold handleMouseMove. rewrite H. reflexivity.
Qed.


End Gestures.

(** ** Zoom floor, panning, price range and frame *)

(** C3. From the initial state (scale 1), after any sequence of
    operations, and so after any sequence of wheel events, the scale is
    a finite value not below 1.  Each wheel event multiplies the scale
    by 1.1 when [deltaY] is positive and by 0.9 when it is negative,
    whatever the magnitude, and takes the maximum with 1. *)
Theorem zoom_never_below_floor (LocalTZA : Z -> Z) :
  (forall rect event c,
     scale (fst (handleMouseWheel LocalTZA rect event c))
     = Math_max [Fin 1; mul (scale c) (zoomFactor event)]) /\
  (forall event,
     (0 < deltaY event -> zoomFactor event = Fin (11 # 10)) /\
     (deltaY event < 0 -> zoomFactor event = Fin (9 # 10))) /\
  (forall ops bars cv,
     exists s, scale (run LocalTZA ops (new_Chart bars cv)) = Fin s /\ 1 <= s).
Proof.
  split; [|split].
  - intros. apply wheel_scale.
  - intro event. destruct (zoomFactor_cases event) as [Hp Hn].
    split; intro H; [apply Hp | apply Hn]; lra.
  - intros ops bars cv.
    apply run_scale_floor, new_Chart_scale.
Qed.

Lemma zoom_never_below_floor_witness :
  zoomFactor wheel_at_centre = Fin (11 # 10) /\
  zoomFactor (mkWheel (-3) (mkMouse 150 50)) = Fin (9 # 10) /\
  exists s,
    scale (run utc [Wheel page_origin wheel_at_centre;
                    Wheel page_origin (mkWheel (-3) (mkMouse 150 50))]
               example_chart) = Fin s /\ 1 <= s.
Proof.
  split; [|split].
  - apply (proj1 (proj1 (proj2 (zoom_never_below_floor utc)) wheel_at_centre)).
    reflexivity.
  - apply (proj2 (proj1 (proj2 (zoom_never_below_floor utc))
                        (mkWheel (-3) (mkMouse 150 50)))).
    reflexivity.
  - apply (proj2 (proj2 (zoom_never_below_floor utc))).
Defined.



(** C8. For a non-empty bar sequence the constructor sets [minPrice]
    to the least [Low] and [maxPrice] to the greatest [High] of the
    bars, no later operation changes either, and for the three example
    bars they are 8 and 12. *)
Theorem price_range_at_construction
        (LocalTZA : Z -> Z) (bars : list IBar) (cv : HTMLCanvasElement) :
  bars <> [] ->
  (exists lo hi,
     minPrice (new_Chart bars cv) = Fin lo /\
     maxPrice (new_Chart bars cv) = Fin hi /\
     In lo (map Low bars) /\ (forall bar, In bar bars -> lo <= Low bar) /\
     In hi (map High bars) /\ (forall bar, In bar bars -> High bar <= hi)) /\
  (forall ops,
     minPrice (run LocalTZA ops (new_Chart bars cv)) = minPrice (new_Chart bars cv) /\
     maxPrice (run LocalTZA ops (new_Chart bars cv)) = maxPrice (new_Chart bars cv)) /\
  (minPrice (new_Chart example_bars cv) = Fin 8 /\
   maxPrice (new_Chart example_bars cv) = Fin 12).
Proof.
  intro Hne. split; [|split].
  - assert (Hlo : map Low bars <> []) by (destruct bars; simpl; congruence).
    assert (Hhi : map High bars <> []) by (destruct bars; simpl; congruence).
    destruct (Math_min_finite _ Hlo) as [lo [Emin [Inlo Blo]]].
    destruct (Math_max_finite _ Hhi) as [hi [Emax [Inhi Bhi]]].
    rewrite map_map in Emin, Emax.
    exists lo, hi. repeat split; auto.
    + intros bar Hb. apply Blo, in_map, Hb.
    + intros bar Hb. apply Bhi, in_map, Hb.
  - intro ops. destruct (run_frame LocalTZA ops (new_Chart bars cv)) as [_ [_ [H3 H4]]].
    split; assumption.
  - split; reflexivity.
Qed.

Lemma price_range_at_construction_witness :
  exists lo hi,
    minPrice example_chart = Fin lo /\ maxPrice example_chart = Fin hi /\
    In lo (map Low example_bars) /\
    (forall bar, In bar example_bars -> lo <= Low bar) /\
    In hi (map High example_bars) /\
    (forall bar, In bar example_bars -> High bar <= hi).
Proof.
  apply (proj1 (price_range_at_construction utc example_bars canvas_300x100
                  ltac:(discriminate))).
Defined.

(** C10. No operation (render, wheel, pointer-down, -move, -up, -leave)
    changes the bar sequence, the canvas, [minPrice] or [maxPrice]; a
    render changes no field at all.  The same holds along any sequence
    of operations. *)
Theorem operations_preserve_bars_and_range (LocalTZA : Z -> Z) :
  (forall (op : Operation) (c : Chart),
     let c' := fst (perform LocalTZA op c) in
     data c' = data c /\ canvas c' = canvas c /\
     minPrice c' = minPrice c /\ maxPrice c' = maxPrice c) /\
  (forall c : Chart, fst (perform LocalTZA Render c) = c) /\
  (forall (ops : list Operation) (c : Chart),
     let c' := run LocalTZA ops c in
     data c' = data c /\ canvas c' = canvas c /\
     minPrice c' = minPrice c /\ maxPrice c' = maxPrice c).
Proof.
  split; [|split].
  - intros op c. apply perform_frame.
  - reflexivity.
  - intros ops c. apply run_frame.
Qed.

(** ** The render loop *)

Section RenderLoop.

Variable LocalTZA : Z -> Z.
Variable c : Chart.

Lemma body_calls (previousDate : option string) (index : nat) (bar : IBar) :
  fst (drawBars_body LocalTZA c previousDate index bar)
  = [set_fillStyle (barColor bar);
     fillRect (barX c (of_nat index)) (barY c (Fin (Close bar)))
              (mul (barWidth c) (scale c)) (barHeight c bar)]
    ++ (if date_changed (bar_date LocalTZA bar) previousDate
        then drawDateLabel (bar_date LocalTZA bar) (labelX c (of_nat index))
                           (sub (canvas_height c) (Fin 5))
        else []).
Proof.
  unfold drawBars_body, bar_date.
  destruct (date_changed _ previousDate); reflexivity.
Qed.

Lemma date_changed_false (d : string) (previousDate : option string) :
  date_changed d previousDate = false -> previousDate = Some d.
Proof.
  destruct previousDate as [p|]; simpl; [|discriminate].
  rewrite negb_false_iff. intro H. apply String.eqb_eq in H. congruence.
Qed.

(** After an iteration [previousDate] holds the date of its bar,
    whether or not a label was drawn. *)
Lemma body_previousDate (previousDate : option string) (index : nat) (bar : IBar) :
  snd (drawBars_body LocalTZA c previousDate index bar) = Some (bar_date LocalTZA bar).
Proof.
  unfold drawBars_body, bar_date.
  destruct (date_changed _ previousDate) eqn:E; simpl; [reflexivity|].
  apply date_changed_false. exact E.
Qed.

Lemma iterations_cons (previousDate : option string) (index : nat)
      (bar : IBar) (rest : list IBar) :
  drawBars_iterations LocalTZA c previousDate index (bar :: rest)
  = fst (drawBars_body LocalTZA c previousDate index bar)
    :: drawBars_iterations LocalTZA c (Some (bar_date LocalTZA bar)) (S index) rest.
Proof.
  simpl. rewrite <- (body_previousDate previousDate index bar).
  destruct (drawBars_body LocalTZA c previousDate index bar); reflexivity.
Qed.

Lemma iterations_length (bars : list IBar) : forall previousDate index,
  List.length (drawBars_iterations LocalTZA c previousDate index bars)
  = List.length bars.
Proof.
  induction bars as [|bar rest IH]; intros; [reflexivity|].
  rewrite iterations_cons. simpl. rewrite IH. reflexivity.
Qed.

(** The calls made for the bar at position [i] of the loop: the body
    run with the date of the bar before it, or [null] for the first. *)
Lemma iterations_nth (bars : list IBar) :
  forall (previousDate : option string) (index i : nat) (bar : IBar),
    nth_error bars i = Some bar ->
    nth_error (drawBars_iterations LocalTZA c previousDate index bars) i
    = Some (fst (drawBars_body LocalTZA c
                   (match i with
                    | O => previousDate
                    | S j => option_map (bar_date LocalTZA) (nth_error bars j)
                    end)
                   (index + i) bar)).
Proof.
  induction bars as [|b rest IH]; intros previousDate index i bar Hi.
  - destruct i; discriminate.
  - rewrite iterations_cons. destruct i as [|i]; simpl in Hi |- *.
    + injection Hi as ->. rewrite Nat.add_0_r. reflexivity.
    + rewrite (IH _ (S index) i bar Hi).
      rewrite Nat.add_succ_r. destruct i; reflexivity.
Qed.

Lemma label_drawn_body (previousDate : option string) (index : nat) (bar : IBar) :
  label_drawn (fst (drawBars_body LocalTZA c previousDate index bar))
  = date_changed (bar_date LocalTZA bar) previousDate.
Proof.
  rewrite body_calls. destruct (date_changed _ previousDate); reflexivity.
Qed.

Lemma count_labels_body (previousDate : option string) (index : nat) (bar : IBar) :
  count_labels (fst (drawBars_body LocalTZA c previousDate index bar))
  = if date_changed (bar_date LocalTZA bar) previousDate then 1%nat else 0%nat.
Proof.
  rewrite body_calls. destruct (date_changed _ previousDate); reflexivity.
Qed.

Lemma count_labels_app (l1 l2 : list CtxCall) :
  count_labels (l1 ++ l2) = (count_labels l1 + count_labels l2)%nat.
Proof.
  unfold count_labels. rewrite filter_app, length_app. reflexivity.
Qed.

(** The loop draws a label exactly where [date_changes] says so. *)
Lemma iterations_labels (bars : list IBar) : forall previousDate index,
  map label_drawn (drawBars_iterations LocalTZA c previousDate index bars)
  = date_changes previousDate (map (bar_date LocalTZA) bars).
Proof.
  induction bars as [|bar rest IH]; intros; [reflexivity|].
  rewrite iterations_cons. simpl. rewrite label_drawn_body, IH. reflexivity.
Qed.

Lemma iterations_count (bars : list IBar) : forall previousDate index,
  count_labels (List.concat (drawBars_iterations LocalTZA c previousDate index bars))
  = count_occ bool_dec (date_changes previousDate (map (bar_date LocalTZA) bars)) true.
Proof.
  induction bars as [|bar rest IH]; intros; [reflexivity|].
  rewrite iterations_cons. simpl List.concat.
  rewrite count_labels_app, count_labels_body, IH. simpl.
  destruct (date_changed _ previousDate); reflexivity.
Qed.

End RenderLoop.

(** ** Date strings and calendar dates *)

Lemma Number_toString_of_Z (z : Z) : Number_toString (of_Z z) = Z_toString z.
Proof.
  unfold of_Z, Number_toString. rewrite Qfloor_Z, Qeq_bool_refl. reflexivity.
Qed.

Lemma Number_toString_succ (z : Z) :
  Number_toString (add (of_Z z) (Fin 1)) = Z_toString (z + 1).
Proof.
  unfold of_Z, add, Number_toString.
  assert (E : inject_Z z + 1 == inject_Z (z + 1))
    by (rewrite inject_Z_plus; reflexivity).
  rewrite (Qfloor_comp _ _ E), Qfloor_Z.
  rewrite (proj2 (Qeq_bool_iff _ _) E). reflexivity.
Qed.

(** The string built by [getDateFromBar] is the text of the calendar
    date of the time stamp. *)
Lemma getDateFromBar_format (LocalTZA : Z -> Z) (time : Q) :
  getDateFromBar LocalTZA (Fin time) = format_date (calendar_date LocalTZA time).
Proof.
  unfold getDateFromBar, calendar_date.
  destruct (new_Date (mul (Fin time) (Fin 1000))) as [t|]; [|reflexivity].
  unfold getDate, getMonth, getFullYear, DateFromTime, MonthFromTime, YearFromTime.
  destruct (civil_from_days (Day (LocalTime LocalTZA t))) as [[y m] d].
  cbn [fst snd format_date].
  rewrite !Number_toString_of_Z, Number_toString_succ, Z.sub_add.
  reflexivity.
Qed.

Lemma split_at_dot (s1 : string) : forall (s2 r1 r2 : string),
  no_dot s1 = true -> no_dot s2 = true ->
  (s1 ++ String "." r1 = s2 ++ String "." r2)%string ->
  s1 = s2 /\ r1 = r2.
Proof.
  induction s1 as [|a s1 IH]; intros [|b s2] r1 r2 H1 H2 E; simpl in *.
  - injection E as ->. auto.
  - injection E as <- _. discriminate.
  - injection E as -> _. discriminate.
  - injection E as -> E.
    apply andb_true_iff in H1 as [_ H1]. apply andb_true_iff in H2 as [_ H2].
    destruct (IH s2 r1 r2 H1 H2 E) as [-> ->]. auto.
Qed.

Lemma no_dot_uint (d : Decimal.uint) : no_dot (NilEmpty.string_of_uint d) = true.
Proof. induction d; simpl; trivial. Qed.

Lemma no_dot_Z (z : Z) : no_dot (Z_toString z) = true.
Proof.
  unfold Z_toString. destruct (Z.to_int z); simpl; apply no_dot_uint.
Qed.

Lemma Z_toString_inj (a b : Z) : Z_toString a = Z_toString b -> a = b.
Proof.
  unfold Z_toString. intro H.
  apply (f_equal NilEmpty.int_of_string) in H.
  rewrite !NilEmpty.isi in H. injection H as H.
  apply DecimalZ.to_int_inj. exact H.
Qed.

Lemma Z_toString_not_NaN (z : Z) : Z_toString z <> "NaN"%string.
Proof.
  unfold Z_toString. intro H.
  apply (f_equal NilEmpty.int_of_string) in H.
  rewrite NilEmpty.isi in H. discriminate.
Qed.

(** Distinct calendar dates print differently. *)
Lemma format_date_inj (d1 d2 : option (Z * Z * Z)) :
  format_date d1 = format_date d2 -> d1 = d2.
Proof.
  destruct d1 as [[[a1 b1] c1]|], d2 as [[[a2 b2] c2]|]; simpl; intro H.
  - apply split_at_dot in H as [Ha H]; try apply no_dot_Z.
    apply split_at_dot in H as [Hb Hc]; try apply no_dot_Z.
    apply Z_toString_inj in Ha, Hb, Hc. congruence.
  - change "NaN.NaN.NaN"%string with ("NaN" ++ String "." "NaN.NaN")%string in H.
    apply split_at_dot in H as [Ha _]; try apply no_dot_Z; try reflexivity.
    exfalso. exact (Z_toString_not_NaN _ Ha).
  - change "NaN.NaN.NaN"%string with ("NaN" ++ String "." "NaN.NaN")%string in H.
    apply split_at_dot in H as [Ha _]; try apply no_dot_Z; try reflexivity.
    exfalso. exact (Z_toString_not_NaN _ (eq_sym Ha)).
  - reflexivity.
Qed.

Lemma bar_date_eq_iff (LocalTZA : Z -> Z) (b1 b2 : IBar) :
  bar_date LocalTZA b1 = bar_date LocalTZA b2
  <-> calendar_date LocalTZA (Time b1) = calendar_date LocalTZA (Time b2).
Proof.
  unfold bar_date. rewrite !getDateFromBar_format. split.
  - apply format_date_inj.
  - intros ->. reflexivity.
Qed.

Lemma date_changed_Some (LocalTZA : Z -> Z) (b1 b2 : IBar) :
  date_changed (bar_date LocalTZA b2) (Some (bar_date LocalTZA b1)) = true
  <-> calendar_date LocalTZA (Time b2) <> calendar_date LocalTZA (Time b1).
Proof.
  simpl. rewrite negb_true_iff, <- bar_date_eq_iff. split.
  - intros H E. apply String.eqb_eq in E. congruence.
  - intro H. destruct (String.eqb _ _) eqn:E; trivial.
    apply String.eqb_eq in E. contradiction.
Qed.

Lemma date_changed_Some_false (LocalTZA : Z -> Z) (b1 b2 : IBar) :
  calendar_date LocalTZA (Time b2) = calendar_date LocalTZA (Time b1) ->
  date_changed (bar_date LocalTZA b2) (Some (bar_date LocalTZA b1)) = false.
Proof.
  intro H. destruct (date_changed _ _) eqn:E; trivial.
  apply date_changed_Some in E. contradiction.
Qed.

Lemma date_changes_same_day (d : string) (dates : list string) :
  (forall x, In x dates -> x = d) ->
  date_changes (Some d) dates = repeat false (List.length dates).
Proof.
  induction dates as [|x rest IH]; intro H; [reflexivity|].
  assert (Hx : x = d) by (apply H; left; reflexivity). subst x.
  simpl. rewrite String.eqb_refl. simpl. f_equal.
  apply IH. intros y Hy. apply H. right. exact Hy.
Qed.

Lemma count_occ_repeat_false (n : nat) :
  count_occ bool_dec (repeat false n) true = 0%nat.
Proof. induction n; simpl; trivial. Qed.

Lemma nth_error_pred {A : Type} (l : list A) (j : nat) (x : A) :
  nth_error l (S j) = Some x -> exists y, nth_error l j = Some y.
Proof.
  intro H. destruct (nth_error l j) as [y|] eqn:E; [exists y; reflexivity|].
  apply nth_error_None in E.
  assert (Hlt : (S j < List.length l)%nat) by (apply nth_error_Some; congruence).
  lia.
Qed.

(** ** Labels and colours *)

(** C6. The loop draws a date label for bar [i] exactly when [i = 0]
    or the calendar date of bar [i] in the host's time zone differs
    from that of bar [i-1].  For three bars of which the first two
    share a date and the third has another, labels are drawn at
    indices 0 and 2 and there are 2 of them; when all bars share one
    date there is 1 label, at index 0. *)
Theorem date_labels_at_day_boundaries (LocalTZA : Z -> Z) :
  (forall (c : Chart) (i : nat) (bar : IBar),
     nth_error (data c) i = Some bar ->
     exists calls,
       nth_error (drawBars_iterations LocalTZA c None 0 (data c)) i = Some calls /\
       (label_drawn calls = true <->
        i = 0%nat \/
        exists j prev,
          i = S j /\ nth_error (data c) j = Some prev /\
          calendar_date LocalTZA (Time bar) <> calendar_date LocalTZA (Time prev))) /\
  (forall (c : Chart) (b0 b1 b2 : IBar),
     data c = [b0; b1; b2] ->
     calendar_date LocalTZA (Time b1) = calendar_date LocalTZA (Time b0) ->
     calendar_date LocalTZA (Time b2) <> calendar_date LocalTZA (Time b1) ->
     map label_drawn (drawBars_iterations LocalTZA c None 0 (data c))
     = [true; false; true] /\
     count_labels (drawBars LocalTZA c) = 2%nat) /\
  (forall (c : Chart) (b0 : IBar) (rest : list IBar),
     data c = b0 :: rest ->
     (forall b, In b rest ->
                calendar_date LocalTZA (Time b) = calendar_date LocalTZA (Time b0)) ->
     map label_drawn (drawBars_iterations LocalTZA c None 0 (data c))
     = true :: repeat false (List.length rest) /\
     count_labels (drawBars LocalTZA c) = 1%nat).
Proof.
  split; [|split].
  - intros c i bar Hi.
    eexists. split; [apply (iterations_nth LocalTZA c _ None 0%nat i bar Hi)|].
    rewrite label_drawn_body. destruct i as [|j].
    + simpl. split; auto.
    + destruct (nth_error_pred _ _ _ Hi) as [prev Hj]. rewrite Hj. cbn [option_map].
      rewrite date_changed_Some. split.
      * intro H. right. exists j, prev. auto.
      * intros [H | [j' [prev' [Ej [Hj' H]]]]]; [discriminate|].
        injection Ej as <-. rewrite Hj in Hj'. injection Hj' as <-. exact H.
  - intros c b0 b1 b2 Hd H01 H12.
    unfold drawBars. rewrite iterations_labels, iterations_count, Hd.
    cbn [map date_changes].
    rewrite (date_changed_Some_false LocalTZA b0 b1 H01).
    rewrite (proj2 (date_changed_Some LocalTZA b1 b2) H12).
    split; reflexivity.
  - intros c b0 rest Hd Hall.
    unfold drawBars. rewrite iterations_labels, iterations_count, Hd.
    cbn [map date_changes].
    rewrite date_changes_same_day.
    + rewrite length_map. cbn [date_changed count_occ].
      destruct (bool_dec true true); [|congruence].
      rewrite count_occ_repeat_false. split; reflexivity.
    + intros x Hx. apply in_map_iff in Hx as [b [<- Hb]].
      apply bar_date_eq_iff, Hall, Hb.
Qed.

Lemma date_labels_at_day_boundaries_witness :
  map label_drawn (drawBars_iterations utc example_chart None 0 (data example_chart))
  = [true; false; true] /\
  count_labels (drawBars utc example_chart) = 2%nat.
Proof.
  apply (proj1 (proj2 (date_labels_at_day_boundaries utc)) example_chart
               (mkBar 0 10 12 9 11 0) (mkBar 43200 11 11 8 9 0)
               (mkBar 86400 9 10 8 (95 # 10) 0)).
  - reflexivity.
  - vm_compute. reflexivity.
  - vm_compute. discriminate.
Defined.

(** C9. The rectangle of a bar is filled with the up colour (green)
    exactly when [Close > Open], and with the down colour (red)
    otherwise; a bar with [Close] equal to [Open] is red. *)
Theorem fill_color_by_close_vs_open (LocalTZA : Z -> Z) :
  (forall (c : Chart) (i : nat) (bar : IBar),
     nth_error (data c) i = Some bar ->
     exists rest,
       nth_error (drawBars_iterations LocalTZA c None 0 (data c)) i
       = Some (set_fillStyle (barColor bar)
               :: fillRect (barX c (of_nat i)) (barY c (Fin (Close bar)))
                           (mul (barWidth c) (scale c)) (barHeight c bar)
               :: rest)) /\
  (forall bar : IBar,
     (barColor bar = "green"%string <-> Open bar < Close bar) /\
     (barColor bar = "red"%string <-> Close bar <= Open bar)) /\
  (forall bar : IBar, Close bar == Open bar -> barColor bar = "red"%string).
Proof.
  split; [|split].
  - intros c i bar Hi. eexists.
    rewrite (iterations_nth LocalTZA c _ None 0%nat i bar Hi), body_calls.
    reflexivity.
  - intro bar. unfold barColor.
    destruct (gt (Fin (Close bar)) (Fin (Open bar))) eqn:E.
    + apply gt_Fin in E. repeat split; trivial; try discriminate. intro H. lra.
    + apply gt_Fin_false in E. repeat split; trivial; try discriminate. intro H. lra.
  - intros bar H. unfold barColor.
    destruct (gt (Fin (Close bar)) (Fin (Open bar))) eqn:E; trivial.
    apply gt_Fin in E. lra.
Qed.

Lemma fill_color_by_close_vs_open_witness :
  barColor (mkBar 0 10 12 9 10 0) = "red"%string /\
  barColor (mkBar 0 10 12 9 11 0) = "green"%string /\
  exists rest,
    nth_error (drawBars_iterations utc example_chart None 0 (data example_chart)) 1
    = Some (set_fillStyle (barColor (mkBar 43200 11 11 8 9 0))
            :: fillRect (barX example_chart (of_nat 1))
                        (barY example_chart (Fin (Close (mkBar 43200 11 11 8 9 0))))
                        (mul (barWidth example_chart) (scale example_chart))
                        (barHeight example_chart (mkBar 43200 11 11 8 9 0))
            :: rest).
Proof.
  split; [|split].
  - apply (proj2 (proj2 (fill_color_by_close_vs_open utc)) (mkBar 0 10 12 9 10 0)).
    reflexivity.
  - apply (proj1 (proj1 (proj2 (fill_color_by_close_vs_open utc)) (mkBar 0 10 12 9 11 0))).
    reflexivity.
  - apply (proj1 (fill_color_by_close_vs_open utc) example_chart 1%nat).
    reflexivity.
Defined.

(** C7 (evaluation of the code).  The label is placed at the bar's left
    edge plus half of the unscaled slot width, at 5 pixels above the
    bottom edge, while the bar is drawn [barWidth * scale] wide.  On the
    example chart after one zoom step bar 0 spans 30..140, so its centre
    is 85, and its label is drawn at 80. *)
Theorem label_x_uses_unscaled_width :
  (forall (c : Chart) (index : number),
     labelX c index = add (barX c index) (div (barWidth c) (Fin 2))) /\
  (exists rest,
     drawBars_iterations utc zoomed_chart None 0 (data zoomed_chart)
     = [set_fillStyle "green";
        fillRect (barX zoomed_chart (of_nat 0)) (barY zoomed_chart (Fin 11))
                 (mul (barWidth zoomed_chart) (scale zoomed_chart))
                 (barHeight zoomed_chart (mkBar 0 10 12 9 11 0));
        set_fillStyle "black"; set_textAlign "center";
        fillText "1.1.1970" (labelX zoomed_chart (of_nat 0)) (Fin 95)]
       :: rest) /\
  barX zoomed_chart (of_nat 0) =n= Fin 30 /\
  mul (barWidth zoomed_chart) (scale zoomed_chart) =n= Fin 110 /\
  labelX zoomed_chart (of_nat 0) =n= Fin 80 /\
  add (barX zoomed_chart (of_nat 0))
      (div (mul (barWidth zoomed_chart) (scale zoomed_chart)) (Fin 2)) =n= Fin 85.
Proof.
  split; [reflexivity|]. split.
  - eexists. vm_compute. reflexivity.
  - repeat split; vm_compute; reflexivity.
Qed.

(** ** The vertical mapping *)

Lemma barY_shift (c : Chart) (price : number) :
  barY c price = sub (barY_unshifted c price) (drawBars_offsetY c).
Proof. reflexivity. Qed.






Lemma is_finite_div_zero (x : number) (b : Q) :
  b == 0 -> is_finite (div x (Fin b)) = false.
Proof.
  intro H. destruct x as [a| | |]; simpl.
  - destruct (Qcompare_spec b 0) as [E | E | E]; try lra.
    destruct (a ?= 0); reflexivity.
  - unfold sgn_divisor, sgn. destruct (Qcompare_spec b 0); try lra. reflexivity.
  - unfold sgn_divisor, sgn. destruct (Qcompare_spec b 0); try lra. reflexivity.
  - reflexivity.
Qed.

Lemma is_finite_mul_l (x y : number) :
  is_finite x = false -> is_finite (mul x y) = false.
Proof.
  destruct x as [a| | |]; try discriminate; intros _;
    destruct y as [b| | |]; simpl; trivial; destruct (b ?= 0); reflexivity.
Qed.

Lemma is_finite_sub_r (x y : number) :
  is_finite y = false -> is_finite (sub x y) = false.
Proof.
  destruct y; try discriminate; intros _; destruct x; reflexivity.
Qed.

Lemma is_finite_sub_l (x y : number) :
  is_finite x = false -> is_finite (sub x y) = false.
Proof.
  destruct x; try discriminate; intros _; destruct y; reflexivity.
Qed.

(** ** Bounds and the degenerate price range *)




(** C2 as stated fails: for a single flat bar the price range is
    degenerate and the render passes [NaN] as vertical position and as
    height of the bar. *)
Lemma flat_bar_renders_NaN :
  maxPrice flat_chart = minPrice flat_chart /\
  barY flat_chart (Fin (Close flat_bar)) = NaN /\
  barHeight flat_chart flat_bar = NaN /\
  In (fillRect (barX flat_chart (of_nat 0)) NaN
               (mul (barWidth flat_chart) (scale flat_chart)) NaN)
     (drawChart utc flat_chart).
Proof.
  split; [reflexivity|]. split; [reflexivity|]. split; [reflexivity|].
  vm_compute. auto 10.
Qed.

(** C2, amended.  When [maxPrice] equals [minPrice] the render applies
    the same vertical mapping as otherwise: the vertical position of
    any price and the height of any bar come out of a division by zero
    and are not finite.  The render still runs through every bar and
    issues its calls. *)
Theorem degenerate_range_is_not_special_cased
        (LocalTZA : Z -> Z) (c : Chart) (lo hi : Q) :
  minPrice c = Fin lo -> maxPrice c = Fin hi -> hi == lo ->
  (forall price : number, is_finite (barY c price) = false) /\
  (forall bar : IBar, is_finite (barHeight c bar) = false) /\
  List.length (drawBars_iterations LocalTZA c None 0 (data c)) = List.length (data c) /\
  (forall (i : nat) (bar : IBar),
     nth_error (data c) i = Some bar ->
     In (fillRect (barX c (of_nat i)) (barY c (Fin (Close bar)))
                  (mul (barWidth c) (scale c)) (barHeight c bar))
        (drawChart LocalTZA c)).
Proof.
  intros Emin Emax Heq.
  assert (Hz : forall x, is_finite (div x (sub (maxPrice c) (minPrice c))) = false).
  { intro x. rewrite Emin, Emax. cbn [sub neg add].
    apply is_finite_div_zero. lra. }
  split; [|split; [|split]].
  - intro price. unfold barY.
    apply is_finite_sub_l, is_finite_sub_r, is_finite_mul_l, Hz.
  - intro bar. unfold barHeight. apply is_finite_mul_l, Hz.
  - apply iterations_length.
  - intros i bar Hi. unfold drawChart, drawBars.
    apply in_or_app. right. apply in_concat.
    eexists. split.
    + eapply nth_error_In. apply (iterations_nth LocalTZA c _ None 0%nat i bar Hi).
    + rewrite body_calls. right. left. reflexivity.
Qed.

Lemma degenerate_range_is_not_special_cased_witness :
  is_finite (barY flat_chart (Fin 10)) = false /\
  is_finite (barHeight flat_chart flat_bar) = false.
Proof.
  destruct (degenerate_range_is_not_special_cased utc flat_chart 10 10
              eq_refl eq_refl ltac:(reflexivity)) as [Hy [Hh _]].
  split; [apply Hy | apply Hh].
Defined.

(** ** Zoom and the rendering map *)

Section Zoom.

Variable LocalTZA : Z -> Z.
Variables (rect : DOMRect) (event : WheelEvent) (c : Chart).







End Zoom.

(** C1 (evaluation of the code).  On the example chart, index 3/2 and
    price 10 are drawn at the canvas centre (150, 50).  One wheel notch
    there raises the scale to 1.1 and sets the offsets by the anchoring
    formula to (-15, -5); the render then draws that same location at
    (195, 65), not at (150, 50). *)
Theorem wheel_does_not_keep_pointed_location :
  sub (Fin (clientX wheel_at_centre)) (Fin (rect_left page_origin)) =n= Fin 150 /\
  sub (Fin (clientY wheel_at_centre)) (Fin (rect_top page_origin)) =n= Fin 50 /\
  barX example_chart (Fin (3 # 2)) =n= Fin 150 /\
  barY example_chart (Fin 10) =n= Fin 50 /\
  gt (scale zoomed_chart) (Fin 1) = true /\
  offsetX zoomed_chart =n= Fin (-15) /\
  offsetY zoomed_chart =n= Fin (-5) /\
  barX zoomed_chart (Fin (3 # 2)) =n= Fin 195 /\
  barY zoomed_chart (Fin 10) =n= Fin 65.
Proof.
  repeat split; vm_compute; reflexivity.
Qed.

(** * Further properties of the code *)

(** ** The gesture machine *)

Lemma perform_gesture_step (LocalTZA : Z -> Z) (op : Operation) (c : Chart) :
  isDragging (fst (perform LocalTZA op c)) = gesture_step (isDragging c) op.
Proof.
  destruct op; simpl; trivial.
  unfold handleMouseMove. destruct (isDragging c) eqn:E; simpl; auto.
Qed.

(** X1. The [isDragging] flag follows the two-state gesture machine
    along every sequence of operations: it is set by pointer-down,
    cleared by pointer-up and pointer-leave, and left alone by moves,
    wheel events and renders. *)
Theorem dragging_flag_follows_gesture_machine
        (LocalTZA : Z -> Z) (ops : list Operation) (c : Chart) :
  isDragging (run LocalTZA ops c) = gesture_state ops (isDragging c).
Proof.
  revert c. induction ops as [|op ops IH]; intro c; [reflexivity|].
  change (run LocalTZA (op :: ops) c)
    with (run LocalTZA ops (fst (perform LocalTZA op c))).
  rewrite IH, perform_gesture_step. reflexivity.
Qed.

Lemma idle_operation_keeps_transform (LocalTZA : Z -> Z) (op : Operation) (c : Chart) :
  isDragging c = false -> no_press_no_wheel op = true ->
  let c' := fst (perform LocalTZA op c) in
  isDragging c' = false /\ scale c' = scale c /\
  offsetX c' = offsetX c /\ offsetY c' = offsetY c.
Proof.
  intros Hd Hop. destruct op; try discriminate; simpl; auto.
  rewrite move_while_idle by exact Hd. simpl. auto.
Qed.

Lemma idle_operations_keep_transform (LocalTZA : Z -> Z) (ops : list Operation) :
  forall c : Chart,
    isDragging c = false -> forallb no_press_no_wheel ops = true ->
    let c' := run LocalTZA ops c in
    isDragging c' = false /\ scale c' = scale c /\
    offsetX c' = offsetX c /\ offsetY c' = offsetY c.
Proof.
  induction ops as [|op ops IH]; intros c Hd Hops; [simpl; auto|].
  simpl in Hops. apply andb_true_iff in Hops as [Hop Hops].
  destruct (idle_operation_keeps_transform LocalTZA op c Hd Hop) as [D [S1 [X1 Y1]]].
  destruct (IH (fst (perform LocalTZA op c)) D Hops) as [D' [S2 [X2 Y2]]].
  change (run LocalTZA (op :: ops) c)
    with (run LocalTZA ops (fst (perform LocalTZA op c))).
  cbv zeta. repeat split; congruence.
Qed.

(** X2. No stuck drag: once the pointer is released or has left the
    canvas, no sequence of moves, releases, leaves and renders changes
    the scale or the offsets, whatever the state was before; the chart
    stays idle until the next pointer-down. *)
Theorem released_pointer_does_not_pan
        (LocalTZA : Z -> Z) (release : Operation) (ops : list Operation) (c : Chart) :
  release = MouseUp \/ release = MouseLeave ->
  forallb no_press_no_wheel ops = true ->
  let c' := run LocalTZA (release :: ops) c in
  isDragging c' = false /\ scale c' = scale c /\
  offsetX c' = offsetX c /\ offsetY c' = offsetY c.
Proof.
  intros Hr Hops.
  change (run LocalTZA (release :: ops) c)
    with (run LocalTZA ops (fst (perform LocalTZA release c))).
  assert (H : isDragging (fst (perform LocalTZA release c)) = false /\
              scale (fst (perform LocalTZA release c)) = scale c /\
              offsetX (fst (perform LocalTZA release c)) = offsetX c /\
              offsetY (fst (perform LocalTZA release c)) = offsetY c)
    by (destruct Hr as [-> | ->]; simpl; auto).
  destruct H as [D [S1 [X1 Y1]]].
  destruct (idle_operations_keep_transform LocalTZA ops _ D Hops) as [D' [S2 [X2 Y2]]].
  cbv zeta. repeat split; congruence.
Qed.

Lemma released_pointer_does_not_pan_witness :
  let c := run utc [MouseDown (mkMouse 10 20); MouseMove (mkMouse 30 5)] example_chart in
  let c' := run utc [MouseLeave; MouseMove (mkMouse 90 90); Render; MouseUp;
                     MouseMove (mkMouse 1 2)] c in
  isDragging c' = false /\ scale c' = scale c /\
  offsetX c' = offsetX c /\ offsetY c' = offsetY c.
Proof.
  apply (released_pointer_does_not_pan utc MouseLeave
           [MouseMove (mkMouse 90 90); Render; MouseUp; MouseMove (mkMouse 1 2)]).
  - right. reflexivity.
  - reflexivity.
Defined.

(** ** The transform stays finite *)








(** ** Zoom steps *)









(** ** Layout of the bars *)





(** ** The price axis *)






(** ** What a render asks of the context *)

Lemma count_calls_app (kind : CtxCall -> bool) (l1 l2 : list CtxCall) :
  count_calls kind (l1 ++ l2) = (count_calls kind l1 + count_calls kind l2)%nat.
Proof.
  unfold count_calls. rewrite filter_app, length_app. reflexivity.
Qed.

Lemma iterations_count_calls (LocalTZA : Z -> Z) (c : Chart) (kind : CtxCall -> bool)
      (per_bar : nat) (bars : list IBar) :
  (forall previousDate index bar,
     count_calls kind (fst (drawBars_body LocalTZA c previousDate index bar)) = per_bar) ->
  forall previousDate index,
    count_calls kind (List.concat (drawBars_iterations LocalTZA c previousDate index bars))
    = (per_bar * List.length bars)%nat.
Proof.
  intro Hbody. induction bars as [|bar rest IH]; intros previousDate index.
  - simpl. rewrite Nat.mul_0_r. reflexivity.
  - rewrite iterations_cons. simpl List.concat.
    rewrite count_calls_app, Hbody, IH. simpl List.length. lia.
Qed.

Lemma date_changes_count_le (dates : list string) : forall previousDate,
  (count_occ bool_dec (date_changes previousDate dates) true <= List.length dates)%nat.
Proof.
  induction dates as [|d rest IH]; intro previousDate; simpl; [lia|].
  specialize (IH (Some d)).
  destruct (bool_dec (date_changed d previousDate) true); lia.
Qed.

(** X9. Every render is a full repaint of fixed shape: it starts by
    clearing the whole canvas and clears only once, never touches the
    context's transform, fills exactly one rectangle per bar, and draws
    at most one label per bar and, when there is a bar at all, at least
    the label of the first. *)
Theorem render_is_a_full_repaint (LocalTZA : Z -> Z) (c : Chart) :
  hd_error (drawChart LocalTZA c)
  = Some (clearRect (Fin 0) (Fin 0) (canvas_width c) (canvas_height c)) /\
  count_calls is_clearRect (drawChart LocalTZA c) = 1%nat /\
  count_calls is_ctx_scale (drawChart LocalTZA c) = 0%nat /\
  count_calls is_fillRect (drawChart LocalTZA c) = List.length (data c) /\
  (count_labels (drawChart LocalTZA c) <= List.length (data c))%nat /\
  (data c <> [] -> (1 <= count_labels (drawChart LocalTZA c))%nat).
Proof.
  assert (Hk : forall kind per_bar,
             (forall previousDate index bar,
                count_calls kind (fst (drawBars_body LocalTZA c previousDate index bar))
                = per_bar) ->
             count_calls kind (drawBars LocalTZA c)
             = (per_bar * List.length (data c))%nat).
  { intros kind per_bar H. unfold drawBars. apply iterations_count_calls. exact H. }
  assert (Hl : count_labels (drawChart LocalTZA c)
               = count_occ bool_dec
                   (date_changes None (map (bar_date LocalTZA) (data c))) true).
  { unfold drawChart. rewrite count_labels_app. unfold drawBars.
    rewrite iterations_count. reflexivity. }
  split; [reflexivity|]. split; [|split; [|split; [|split]]].
  - unfold drawChart. rewrite count_calls_app, (Hk is_clearRect 0%nat); [reflexivity|].
    intros. rewrite body_calls. destruct (date_changed _ _); reflexivity.
  - unfold drawChart. rewrite count_calls_app, (Hk is_ctx_scale 0%nat); [reflexivity|].
    intros. rewrite body_calls. destruct (date_changed _ _); reflexivity.
  - unfold drawChart. rewrite count_calls_app, (Hk is_fillRect 1%nat).
    + simpl. lia.
    + intros. rewrite body_calls. destruct (date_changed _ _); reflexivity.
  - rewrite Hl. etransitivity; [apply date_changes_count_le|].
    rewrite length_map. lia.
  - intro Hne. rewrite Hl. destruct (data c) as [|bar rest]; [congruence|].
    simpl. lia.
Qed.

Lemma render_is_a_full_repaint_witness :
  (1 <= count_labels (drawChart utc zoomed_chart))%nat.
Proof.
  apply (proj2 (proj2 (proj2 (proj2 (proj2 (render_is_a_full_repaint utc zoomed_chart)))))).
  discriminate.
Defined.

(** X10. An empty bar sequence: the constructor leaves [minPrice] at
    [+Infinity] and [maxPrice] at [-Infinity], and in every state
    reached from it a render only clears the canvas and strokes the
    border; no bar, no label and no non-finite coordinate reaches the
    context. *)
Theorem empty_data_renders_border_only
        (LocalTZA : Z -> Z) (ops : list Operation) (cv : HTMLCanvasElement) :
  let c := run LocalTZA ops (new_Chart [] cv) in
  minPrice c = PInf /\ maxPrice c = NInf /\
  drawChart LocalTZA c
  = [clearRect (Fin 0) (Fin 0) (of_N (width cv)) (of_N (height cv));
     set_strokeStyle "#000";
     strokeRect (Fin 0) (Fin 0) (of_N (width cv)) (of_N (height cv))].
Proof.
  destruct (run_frame LocalTZA ops (new_Chart [] cv)) as [Ed [Ec [Emin Emax]]].
  cbv zeta. rewrite Emin, Emax. split; [reflexivity | split; [reflexivity|]].
  unfold drawChart, drawBars, canvas_width, canvas_height.
  rewrite Ed, Ec. reflexivity.
Qed.

(** ** Date strings *)

(** X11. [getDateFromBar] yields the same string for two time stamps
    exactly when they have the same calendar date in the host's time
    zone, or are both outside the range of [Date]; a time stamp whose
    milliseconds exceed 8.64e15 in magnitude yields ["NaN.NaN.NaN"]. *)
Theorem date_string_identifies_calendar_date (LocalTZA : Z -> Z) :
  (forall t1 t2 : Q,
     getDateFromBar LocalTZA (Fin t1) = getDateFromBar LocalTZA (Fin t2)
     <-> calendar_date LocalTZA t1 = calendar_date LocalTZA t2) /\
  (forall t : Q,
     8640000000000000 < Qabs (t * 1000) ->
     getDateFromBar LocalTZA (Fin t) = "NaN.NaN.NaN"%string).
Proof.
  split.
  - intros t1 t2. rewrite !getDateFromBar_format. split.
    + apply format_date_inj.
    + intros ->. reflexivity.
  - intros t H. rewrite getDateFromBar_format. unfold calendar_date, new_Date.
    cbn [mul TimeClip].
    destruct (Qle_bool (Qabs (t * 1000)) 8640000000000000) eqn:E; [|reflexivity].
    apply Qle_bool_iff in E. lra.
Qed.

Lemma date_string_identifies_calendar_date_witness :
  getDateFromBar utc (Fin 9000000000000) = "NaN.NaN.NaN"%string /\
  getDateFromBar utc (Fin 0) = getDateFromBar utc (Fin 43200).
Proof.
  split.
  - apply (proj2 (date_string_identifies_calendar_date utc) 9000000000000).
    vm_compute. reflexivity.
  - apply (proj1 (date_string_identifies_calendar_date utc) 0 43200).
    vm_compute. reflexivity.
Defined.

(** ** Page set-up *)

Lemma initCharts_loop_spec (LocalTZA : Z -> Z) (chartData : list IChartData.t) :
  forall (index : nat) (children : list CanvasNode),
    initCharts_loop LocalTZA index chartData children
    = (children
       ++ map (fun p => fst (initCharts_body LocalTZA (fst p) (snd p)))
              (combine (seq index (List.length chartData)) chartData),
       map (fun p => snd (initCharts_body LocalTZA (fst p) (snd p)))
           (combine (seq index (List.length chartData)) chartData)).
Proof.
  induction chartData as [|d rest IH]; intros index children.
  - simpl. rewrite app_nil_r. reflexivity.
  - change (initCharts_loop LocalTZA index (d :: rest) children)
      with (let '(canvas, chart) := initCharts_body LocalTZA index d in
            let '(children', charts) :=
              initCharts_loop LocalTZA (S index) rest (children ++ [canvas]) in
            (children', chart :: charts)).
    destruct (initCharts_body LocalTZA index d) as [node chart] eqn:E.
    rewrite IH.
    cbn [List.length seq combine map fst snd]. rewrite E. cbn [fst snd].
    rewrite <- app_assoc. reflexivity.
Qed.

Lemma nth_error_combine_seq {A : Type} (l : list A) :
  forall (index i : nat) (x : A),
    nth_error l i = Some x ->
    nth_error (combine (seq index (List.length l)) l) i = Some ((index + i)%nat, x).
Proof.
  induction l as [|y l IH]; intros index i x H.
  - destruct i; discriminate.
  - destruct i as [|i]; simpl in *.
    + injection H as ->. rewrite Nat.add_0_r. reflexivity.
    + rewrite (IH (S index) i x H). rewrite Nat.add_succ_r. reflexivity.
Qed.

Lemma map_fst_combine_seq {A : Type} (l : list A) : forall index : nat,
  map fst (combine (seq index (List.length l)) l) = seq index (List.length l).
Proof.
  induction l as [|y l IH]; intro index; [reflexivity|].
  simpl. rewrite IH. reflexivity.
Qed.

Lemma map_snd_combine_seq {A : Type} (l : list A) : forall index : nat,
  map snd (combine (seq index (List.length l)) l) = l.
Proof.
  induction l as [|y l IH]; intro index; [reflexivity|].
  simpl. rewrite IH. reflexivity.
Qed.

Lemma chartCanvas_id_text (index : nat) :
  chartCanvas_id index = ("chartCanvas" ++ Z_toString (Z.of_nat index + 1))%string.
Proof.
  unfold chartCanvas_id, of_nat. rewrite Number_toString_succ. reflexivity.
Qed.

Lemma chartCanvas_id_inj : Injective chartCanvas_id.
Proof.
  intros i j H. rewrite !chartCanvas_id_text in H. simpl in H.
  injection H as H. apply Z_toString_inj in H. lia.
Qed.

(** X12. [initCharts] creates charts only when the page has the
    container.  Without it nothing is created and one error message is
    logged.  With it nothing is logged and, for each data set in order,
    one canvas is appended after the existing children, sized 800 by
    400 whatever its size was, and one chart is built over that data
    set's bars and rendered once. *)
Theorem initCharts_one_chart_per_data_set
        (LocalTZA : Z -> Z) (chartData : list IChartData.t) (document : Document) :
  (chartsContainer document = None ->
   initCharts LocalTZA chartData document
   = (mkDocument None
        (console_error document
         ++ ["Element '#chartsContainer' not found on the page."%string]),
      [])) /\
  (forall children : list CanvasNode,
     chartsContainer document = Some children ->
     exists nodes,
       fst (initCharts LocalTZA chartData document)
       = mkDocument (Some (children ++ nodes)) (console_error document) /\
       List.length nodes = List.length chartData /\
       List.length (snd (initCharts LocalTZA chartData document))
       = List.length chartData /\
       forall (i : nat) (d : IChartData.t),
         nth_error chartData i = Some d ->
         nth_error nodes i = Some (mkNode (chartCanvas_id i) (mkCanvas 800 400)) /\
         nth_error (snd (initCharts LocalTZA chartData document)) i
         = Some (new_Chart (IChartData.bars d) (mkCanvas 800 400),
                 drawChart LocalTZA (new_Chart (IChartData.bars d) (mkCanvas 800 400)))).
Proof.
  split.
  - intro H. unfold initCharts. rewrite H. reflexivity.
  - intros children H. unfold initCharts. rewrite H, initCharts_loop_spec.
    eexists. split; [reflexivity|]. cbn [snd].
    split; [|split].
    + rewrite length_map, length_combine, length_seq. lia.
    + rewrite length_map, length_combine, length_seq. lia.
    + intros i d Hi.
      rewrite !nth_error_map, (nth_error_combine_seq chartData 0 i d Hi).
      split; reflexivity.
Qed.

Lemma initCharts_one_chart_per_data_set_witness :
  initCharts utc [IChartData.mk createElement_canvas example_bars]
             (mkDocument None [])
  = (mkDocument None ["Element '#chartsContainer' not found on the page."%string], []) /\
  exists nodes,
    fst (initCharts utc [IChartData.mk createElement_canvas example_bars]
                    (mkDocument (Some []) []))
    = mkDocument (Some ([] ++ nodes)) [] /\
    List.length nodes = 1%nat.
Proof.
  split.
  - apply (proj1 (initCharts_one_chart_per_data_set utc
                    [IChartData.mk createElement_canvas example_bars]
                    (mkDocument None []))).
    reflexivity.
  - destruct (proj2 (initCharts_one_chart_per_data_set utc
                       [IChartData.mk createElement_canvas example_bars]
                       (mkDocument (Some []) [])) [] eq_refl)
      as [nodes [E [L _]]].
    exists nodes. split; [exact E | exact L].
Defined.

(** X13. The canvases appended by [initCharts] carry the ids
    [chartCanvas1], [chartCanvas2], ... in order, and these ids are
    pairwise distinct. *)
Theorem initCharts_ids_are_distinct
        (LocalTZA : Z -> Z) (chartData : list IChartData.t)
        (document : Document) (children : list CanvasNode) :
  chartsContainer document = Some children ->
  exists nodes,
    chartsContainer (fst (initCharts LocalTZA chartData document))
    = Some (children ++ nodes) /\
    map node_id nodes
    = map (fun i => ("chartCanvas" ++ Z_toString (Z.of_nat i + 1))%string)
          (seq 0 (List.length chartData)) /\
    NoDup (map node_id nodes).
Proof.
  intro H. unfold initCharts. rewrite H, initCharts_loop_spec.
  eexists. split; [reflexivity|].
  assert (E : map node_id
                (map (fun p => fst (initCharts_body LocalTZA (fst p) (snd p)))
                     (combine (seq 0 (List.length chartData)) chartData))
              = map chartCanvas_id (seq 0 (List.length chartData))).
  { rewrite map_map. cbn [initCharts_body fst set_id set_width set_height node_id].
    rewrite <- (map_fst_combine_seq chartData 0) at 2. rewrite map_map. reflexivity. }
  rewrite E. split.
  - apply map_ext. intro i. apply chartCanvas_id_text.
  - apply Injective_map_NoDup; [exact chartCanvas_id_inj | apply seq_NoDup].
Qed.

Lemma initCharts_ids_are_distinct_witness :
  exists nodes,
    chartsContainer
      (fst (initCharts utc [IChartData.mk createElement_canvas example_bars;
                            IChartData.mk createElement_canvas [flat_bar]]
                       (mkDocument (Some []) [])))
    = Some ([] ++ nodes) /\
    map node_id nodes
    = map (fun i => ("chartCanvas" ++ Z_toString (Z.of_nat i + 1))%string) (seq 0 2) /\
    NoDup (map node_id nodes).
Proof.
  apply (initCharts_ids_are_distinct utc
           [IChartData.mk createElement_canvas example_bars;
            IChartData.mk createElement_canvas [flat_bar]]
           (mkDocument (Some []) []) [] eq_refl).
Defined.

(** X14. The module's start-up builds one chart per data set of the
    feed, in the feed's order, each over that data set's [Bars] and in
    the constructor's initial state on an 800 by 400 canvas; with the
    container missing it builds none. *)
Theorem start_up_builds_a_chart_per_data_set
        (LocalTZA : Z -> Z) (data : list IData) (document : Document) :
  (chartsContainer document <> None ->
   map fst (snd (new_DataHandler LocalTZA data document))
   = map (fun chartData => new_Chart (Bars chartData) (mkCanvas 800 400)) data) /\
  (chartsContainer document = None ->
   snd (new_DataHandler LocalTZA data document) = []).
Proof.
  unfold new_DataHandler, initCharts. split; intro H.
  - destruct (chartsContainer document) as [children|]; [|congruence].
    rewrite initCharts_loop_spec. cbn [snd]. rewrite map_map.
    cbn [initCharts_body snd fst].
    transitivity
      (map (fun d => new_Chart (IChartData.bars d) (mkCanvas 800 400))
           (map snd (combine (seq 0 (List.length (chartData data))) (chartData data))));
      [rewrite map_map; reflexivity|].
    rewrite map_snd_combine_seq. unfold chartData. rewrite map_map. reflexivity.
  - rewrite H. reflexivity.
Qed.

Lemma start_up_builds_a_chart_per_data_set_witness :
  map fst (snd (new_DataHandler utc [mkData 0 example_bars; mkData 86400 [flat_bar]]
                                (mkDocument (Some []) [])))
  = [example_chart_800x400; new_Chart [flat_bar] (mkCanvas 800 400)].
Proof.
  apply (proj1 (start_up_builds_a_chart_per_data_set utc
                  [mkData 0 example_bars; mkData 86400 [flat_bar]]
                  (mkDocument (Some []) []))).
  discriminate.
Defined.

(** ** Where a wheel event moves the chart *)





(** ** The price range as a function of the bars *)

Lemma price_range_attained (bars : list IBar) (cv : HTMLCanvasElement) :
  bars <> [] ->
  exists lo hi,
    minPrice (new_Chart bars cv) = Fin lo /\
    maxPrice (new_Chart bars cv) = Fin hi /\
    (exists b, In b bars /\ Low b = lo) /\
    (forall bar, In bar bars -> lo <= Low bar) /\
    (exists b, In b bars /\ High b = hi) /\
    (forall bar, In bar bars -> High bar <= hi).
Proof.
  intro Hne.
  assert (Hlo : map Low bars <> []) by (destruct bars; simpl; congruence).
  assert (Hhi : map High bars <> []) by (destruct bars; simpl; congruence).
  destruct (Math_min_finite _ Hlo) as [lo [Emin [Inlo Blo]]].
  destruct (Math_max_finite _ Hhi) as [hi [Emax [Inhi Bhi]]].
  rewrite map_map in Emin, Emax.
  apply in_map_iff in Inlo as [bl [El Hbl]].
  apply in_map_iff in Inhi as [bh [Eh Hbh]].
  exists lo, hi. repeat split; auto.
  - exists bl. auto.
  - intros bar Hb. apply Blo, in_map, Hb.
  - exists bh. auto.
  - intros bar Hb. apply Bhi, in_map, Hb.
Qed.

(** X17. The price range depends on the bars as a set only, and more
    bars can only widen it: when every bar of [bars] occurs in [bars'],
    the range of [bars'] encloses that of [bars]; two sequences with
    the same bars, in any order and multiplicity, and on any canvas,
    have the same range. *)
Theorem price_range_grows_with_the_bars
        (bars bars' : list IBar) (cv cv' : HTMLCanvasElement) :
  bars <> [] -> incl bars bars' ->
  (exists lo hi lo' hi',
     minPrice (new_Chart bars cv) = Fin lo /\ maxPrice (new_Chart bars cv) = Fin hi /\
     minPrice (new_Chart bars' cv') = Fin lo' /\ maxPrice (new_Chart bars' cv') = Fin hi' /\
     lo' <= lo /\ hi <= hi') /\
  (incl bars' bars ->
   minPrice (new_Chart bars' cv') =n= minPrice (new_Chart bars cv) /\
   maxPrice (new_Chart bars' cv') =n= maxPrice (new_Chart bars cv)).
Proof.
  intros Hne Hincl.
  assert (Hne' : bars' <> []).
  { destruct bars as [|b rest]; [congruence|].
    intros ->. exact (Hincl b (or_introl eq_refl)). }
  destruct (price_range_attained bars cv Hne)
    as [lo [hi [Emin [Emax [[bl [Hbl El]] [Blo [[bh [Hbh Eh]] Bhi]]]]]]].
  destruct (price_range_attained bars' cv' Hne')
    as [lo' [hi' [Emin' [Emax' [[bl' [Hbl' El']] [Blo' [[bh' [Hbh' Eh']] Bhi']]]]]]].
  assert (H1 : lo' <= lo) by (rewrite <- El; apply Blo', Hincl, Hbl).
  assert (H2 : hi <= hi') by (rewrite <- Eh; apply Bhi', Hincl, Hbh).
  split.
  - exists lo, hi, lo', hi'. auto 10.
  - intro Hincl'.
    assert (H3 : lo <= lo') by (rewrite <- El'; apply Blo, Hincl', Hbl').
    assert (H4 : hi' <= hi) by (rewrite <- Eh'; apply Bhi, Hincl', Hbh').
    rewrite Emin, Emax, Emin', Emax'. cbn [num_eq]. split; lra.
Qed.

Lemma price_range_grows_with_the_bars_witness :
  minPrice (new_Chart (rev example_bars) (mkCanvas 800 400)) =n= minPrice example_chart /\
  maxPrice (new_Chart (rev example_bars) (mkCanvas 800 400)) =n= maxPrice example_chart.
Proof.
  apply (proj2 (price_range_grows_with_the_bars example_bars (rev example_bars)
                  canvas_300x100 (mkCanvas 800 400) ltac:(discriminate)
                  ltac:(intros b H; apply in_rev; rewrite rev_involutive; exact H))).
  intros b H. apply in_rev. exact H.
Defined.

(** X18. For bars with [Low <= High] the constructor's range satisfies
    [minPrice <= maxPrice], and it is degenerate, [maxPrice] equal to
    [minPrice], exactly when every bar is flat at one common price. *)
Theorem degenerate_range_iff_all_bars_flat
        (bars : list IBar) (cv : HTMLCanvasElement) :
  bars <> [] ->
  (forall bar, In bar bars -> Low bar <= High bar) ->
  gt (minPrice (new_Chart bars cv)) (maxPrice (new_Chart bars cv)) = false /\
  (maxPrice (new_Chart bars cv) =n= minPrice (new_Chart bars cv)
   <-> exists p, forall bar, In bar bars -> Low bar == p /\ High bar == p).
Proof.
  intros Hne Hwf.
  destruct (price_range_attained bars cv Hne)
    as [lo [hi [Emin [Emax [[bl [Hbl El]] [Blo [[bh [Hbh Eh]] Bhi]]]]]]].
  rewrite Emin, Emax. cbn [num_eq].
  assert (Hle : lo <= hi).
  { pose proof (Blo bl Hbl). pose proof (Hwf bl Hbl). pose proof (Bhi bl Hbl). lra. }
  split; [apply gt_Fin_false; exact Hle|]. split.
  - intro E. exists lo. intros bar Hb.
    pose proof (Blo bar Hb). pose proof (Hwf bar Hb). pose proof (Bhi bar Hb).
    split; lra.
  - intros [p Hp].
    destruct (Hp bl Hbl) as [A _]. destruct (Hp bh Hbh) as [_ B].
    rewrite El in A. rewrite Eh in B. lra.
Qed.

Lemma degenerate_range_iff_all_bars_flat_witness :
  maxPrice flat_chart =n= minPrice flat_chart.
Proof.
  apply (proj2 (degenerate_range_iff_all_bars_flat [flat_bar] canvas_300x100
                  ltac:(discriminate)
                  ltac:(intros bar [<- | []]; vm_compute; discriminate))).
  exists 10. intros bar [<- | []]. split; reflexivity.
Defined.

(** ** Labels *)

Lemma iterations_In (LocalTZA : Z -> Z) (c : Chart) (bars : list IBar) :
  forall (previousDate : option string) (index : nat) (calls : list CtxCall),
    In calls (drawBars_iterations LocalTZA c previousDate index bars) ->
    exists previousDate' i bar,
      nth_error bars i = Some bar /\
      calls = fst (drawBars_body LocalTZA c previousDate' (index + i) bar).
Proof.
  induction bars as [|b rest IH]; intros previousDate index calls H.
  - destruct H.
  - rewrite iterations_cons in H. destruct H as [<- | H].
    + exists previousDate, 0%nat, b. rewrite Nat.add_0_r. split; reflexivity.
    + destruct (IH _ _ _ H) as [p [i [bar [Hi E]]]].
      exists p, (S i), bar. rewrite Nat.add_succ_r. split; assumption.
Qed.

(** X19. Every text a render draws is the date string of one of the
    bars, placed at that bar's label position and on the line 5 pixels
    above the bottom edge of the canvas. *)
Theorem labels_sit_on_the_bottom_line
        (LocalTZA : Z -> Z) (c : Chart) (text : string) (x y : number) :
  In (fillText text x y) (drawChart LocalTZA c) ->
  y = sub (canvas_height c) (Fin 5) /\
  exists (i : nat) (bar : IBar),
    nth_error (data c) i = Some bar /\
    text = bar_date LocalTZA bar /\ x = labelX c (of_nat i).
Proof.
  unfold drawChart, drawBars. intro H.
  apply in_app_or in H as [H | H].
  - simpl in H. repeat (destruct H as [H | H]; [discriminate|]). destruct H.
  - apply in_concat in H as [calls [Hc Hin]].
    destruct (iterations_In LocalTZA c _ _ _ _ Hc) as [p [i [bar [Hi ->]]]].
    rewrite body_calls in Hin. simpl in Hin.
    destruct Hin as [Hin | [Hin | Hin]]; try discriminate.
    destruct (date_changed (bar_date LocalTZA bar) p); [|destruct Hin].
    simpl in Hin. destruct Hin as [Hin | [Hin | [Hin | []]]]; try discriminate.
    injection Hin as <- <- <-.
    split; [reflexivity|]. exists i, bar. auto.
Qed.

Lemma labels_sit_on_the_bottom_line_witness :
  Fin 95 = sub (canvas_height example_chart) (Fin 5) /\
  exists (i : nat) (bar : IBar),
    nth_error (data example_chart) i = Some bar /\
    "2.1.1970"%string = bar_date utc bar /\
    Fin (9000 # 36) = labelX example_chart (of_nat i).
Proof.
  apply (labels_sit_on_the_bottom_line utc example_chart "2.1.1970"
           (Fin (9000 # 36)) (Fin 95)).
  vm_compute. auto 20.
Defined.
